(** * media-web-app: the catalog page script and the storage schema

    A shallow embedding of [media_web_app/static/script.js] (the client
    page: thumbnail resolution, card rendering, the two view toggles and
    the three network handlers) and of the [CREATE TABLE media] schema,
    followed by the properties the specification states about them. *)

From Stdlib Require Import ZArith.
From stdpp Require Import gmap strings list fin_maps.

(** ** JavaScript values *)

(** The values that reach the script through record fields and through
    property reads: [undefined], [null], strings, and the members every
    object literal inherits from [Object.prototype]. *)
Inductive value :=
  | VUndefined
  | VNull
  | VString (s : string)
  | VFunction (name : string)
  | VObjectPrototype.

#[global] Instance value_eq_dec : EqDecision value.
Proof. solve_decision. Defined.

(** ECMAScript [ToBoolean]: the test of [if (imgSource)]. *)
Definition ToBoolean (v : value) : bool :=
  match v with
  | VUndefined | VNull => false
  | VString s => negb (String.eqb s "")
  | VFunction _ | VObjectPrototype => true
  end.

(** ECMAScript [ToString]: what a template literal interpolates. *)
Definition ToString (v : value) : string :=
  match v with
  | VUndefined => "undefined"
  | VNull => "null"
  | VString s => s
  | VFunction name => "function " +:+ name +:+ "() { [native code] }"
  | VObjectPrototype => "[object Object]"
  end.

(** ECMAScript [ToPropertyKey]: the key of a computed member access
    [obj[v]]. *)
Definition ToPropertyKey (v : value) : string := ToString v.

(** The members of [Object.prototype], which every object literal and
    every object produced by [JSON.parse] inherits. *)
Definition Object_prototype : gmap string value :=
  list_to_map
    [ ("constructor", VFunction "Object");
      ("hasOwnProperty", VFunction "hasOwnProperty");
      ("isPrototypeOf", VFunction "isPrototypeOf");
      ("propertyIsEnumerable", VFunction "propertyIsEnumerable");
      ("toLocaleString", VFunction "toLocaleString");
      ("toString", VFunction "toString");
      ("valueOf", VFunction "valueOf");
      ("__defineGetter__", VFunction "__defineGetter__");
      ("__defineSetter__", VFunction "__defineSetter__");
      ("__lookupGetter__", VFunction "__lookupGetter__");
      ("__lookupSetter__", VFunction "__lookupSetter__");
      ("__proto__", VObjectPrototype) ].

(** Property read [o[k]] on an ordinary object: own properties first,
    then the prototype, [undefined] when neither has the key. *)
Definition Get (o : gmap string value) (k : value) : value :=
  match o !! ToPropertyKey k with
  | Some v => v
  | None => default VUndefined (Object_prototype !! ToPropertyKey k)
  end.

(** ** Elements, constants, variables *)

(** A media record as it arrives from the backend: a parsed JSON object. *)
Abbreviation Entry := (gmap string value).

Definition default_icon : string := "./static/resources/file_icon_500_500.svg".

Definition fileTypeThumbnailMap : gmap string value :=
  list_to_map
    [ ("movie", VString default_icon);
      ("show", VString default_icon);
      ("music", VString default_icon);
      ("book", VString default_icon) ].

(** The own keys of [fileTypeThumbnailMap], in source order. *)
Definition fileTypeThumbnailMap_keys : list string :=
  ["movie"; "show"; "music"; "book"].

(** ** Cards *)

(** The double-quote character of the markup literals. *)
Definition dq : string :=
  String (Ascii.Ascii false true false false false true false false) EmptyString.

Definition nl : string :=
  String (Ascii.Ascii false true false true false false false false) EmptyString.

(** The [div] built by [createFileElement]: its class list and the three
    values interpolated into its markup. *)
Record FileDiv := {
  classList : list string;
  thumbnail : value;
  title : value;
  description : value
}.

#[global] Instance FileDiv_eq_dec : EqDecision FileDiv.
Proof. solve_decision. Defined.

(** The template literal [fileElementHTML] inserted into the [div]. *)
Definition fileElementHTML (d : FileDiv) : string :=
  nl +:+
  "    <img class=" +:+ dq +:+ "file-thumbnail" +:+ dq +:+ " src=" +:+ dq
     +:+ ToString (thumbnail d) +:+ dq +:+ " alt=" +:+ dq +:+ "file thumbnail image"
     +:+ dq +:+ ">" +:+ nl +:+
  "    <div class=" +:+ dq +:+ "file-text" +:+ dq +:+ ">" +:+ nl +:+
  "        <span class=" +:+ dq +:+ "file-title" +:+ dq +:+ ">"
     +:+ ToString (title d) +:+ "</span>" +:+ nl +:+
  "        <p class=" +:+ dq +:+ "file-description" +:+ dq +:+ ">"
     +:+ ToString (description d) +:+ "</p>" +:+ nl +:+
  "    </div>" +:+ nl +:+
  "    <div class=" +:+ dq +:+ "file-controls" +:+ dq +:+ ">" +:+ nl +:+
  "        <button class=" +:+ dq +:+ "file-download" +:+ dq +:+ " type=" +:+ dq
     +:+ "button" +:+ dq +:+ ">DOWNLOAD</button>" +:+ nl +:+
  "        <!-- <button class=" +:+ dq +:+ "file-edit" +:+ dq +:+ " type=" +:+ dq
     +:+ "button" +:+ dq +:+ ">edit</button> -->" +:+ nl +:+
  "    </div>" +:+ nl +:+
  "    ".

(** [createFileElement(title, type, description, imgSource)]. *)
Definition createFileElement (title type description imgSource : value) : FileDiv :=
  let thumbnail :=
    if ToBoolean imgSource then imgSource else Get fileTypeThumbnailMap type in
  {| classList := ["file"; "bordered"];
     thumbnail := thumbnail;
     title := title;
     description := description |}.

(** A child of the [browser] region: a card appended with [appendChild],
    or the nodes the HTML parser made of a string assigned to
    [innerHTML], kept with their source text. *)
Inductive Node :=
  | Card (d : FileDiv)
  | Parsed (html : string).

#[global] Instance Node_eq_dec : EqDecision Node.
Proof. solve_decision. Defined.

(** The string assigned to [browser.innerHTML] for an empty result. Its
    end tag is written [</span?] and never closed by [>]; the parser drops
    it at the end of input, which leaves the one [span] element. *)
Definition noResultsHTML : string :=
  "<span class=" +:+ dq +:+ "message" +:+ dq +:+ ">No results found</span?".

(** ** The page *)

(** What [toggleSearchMode] writes: the label of the mode button and the
    [display] style of the two search forms. *)
Record SearchModeView := {
  searchModeBtn_innerText : string;
  searchFormSimple_display : string;
  searchFormAdvanced_display : string
}.

(** What [toggleNewEntryView] writes. *)
Record NewEntryOverlay := {
  body_overflow : string;
  newEntryView_display : string
}.

(** The entries of a form, in control order, as [FormData] lists them. *)
Abbreviation FormData := (list (string * string)).

(** The new-entry form: the current value of each named control and the
    default value the markup (which is not part of the script) gives it. *)
Record Form := {
  form_values : FormData;
  form_defaults : FormData
}.

Inductive Exn :=
  | NetworkError (msg : string)
  | SyntaxError (msg : string)
  | TypeError (msg : string).

(** An [async] function either returns a fulfilled promise or one rejected
    with the exception its body threw. *)
Inductive Promise :=
  | Fulfilled
  | Rejected (e : Exn).

(** A request whose response has not arrived, with the listener suspended
    at its [await]. *)
Inductive Awaiting :=
  | AwaitRecent
  | AwaitSearch
  | AwaitNew.

(** The effects of the script, in the order they happen. *)
Inductive Action :=
  | PreventDefault
  | FormReset
  | Fetch (method path : string) (body : option (gmap string string))
  | ConsoleLog (e : Exn)
  | SetBrowserHTML (html : string)
  | AppendChild (n : Node)
  | SetSearchMode (mode : string)
  | SetNewEntryView (entry : bool)
  | UnhandledRejection (e : Exn).

Record Page := {
  searchMode : SearchModeView;
  overlay : NewEntryOverlay;
  browser : list Node;
  newEntryForm : Form;
  pending : list Awaiting;
  trace : list Action
}.

Definition set_searchMode (v : SearchModeView) (p : Page) : Page :=
  {| searchMode := v; overlay := overlay p; browser := browser p;
     newEntryForm := newEntryForm p; pending := pending p; trace := trace p |}.

Definition set_overlay (v : NewEntryOverlay) (p : Page) : Page :=
  {| searchMode := searchMode p; overlay := v; browser := browser p;
     newEntryForm := newEntryForm p; pending := pending p; trace := trace p |}.

Definition set_browser (v : list Node) (p : Page) : Page :=
  {| searchMode := searchMode p; overlay := overlay p; browser := v;
     newEntryForm := newEntryForm p; pending := pending p; trace := trace p |}.

Definition set_newEntryForm (v : Form) (p : Page) : Page :=
  {| searchMode := searchMode p; overlay := overlay p; browser := browser p;
     newEntryForm := v; pending := pending p; trace := trace p |}.

Definition set_pending (v : list Awaiting) (p : Page) : Page :=
  {| searchMode := searchMode p; overlay := overlay p; browser := browser p;
     newEntryForm := newEntryForm p; pending := v; trace := trace p |}.

Definition emit (a : Action) (p : Page) : Page :=
  {| searchMode := searchMode p; overlay := overlay p; browser := browser p;
     newEntryForm := newEntryForm p; pending := pending p;
     trace := trace p ++ [a] |}.

(** What [console.log] has printed so far. *)
Definition console (p : Page) : list Exn :=
  omap (fun a => match a with ConsoleLog e => Some e | _ => None end) (trace p).

(** The promises that were rejected with nobody awaiting them. *)
Definition unhandled (p : Page) : list Exn :=
  omap (fun a => match a with UnhandledRejection e => Some e | _ => None end)
       (trace p).

(** ** DOM primitives *)

(** [browser.innerHTML = html]: every child is removed and replaced by the
    nodes parsed from [html]; the empty string parses to no node. *)
Definition set_innerHTML (html : string) (p : Page) : Page :=
  emit (SetBrowserHTML html)
    (set_browser (if decide (html = "") then [] else [Parsed html]) p).

(** [browser.appendChild(fileDiv)]. *)
Definition appendChild (d : FileDiv) (p : Page) : Page :=
  emit (AppendChild (Card d)) (set_browser (browser p ++ [Card d]) p).

(** [newEntryForm.reset()]: every control goes back to its default value. *)
Definition reset (p : Page) : Page :=
  emit FormReset
    (set_newEntryForm
       {| form_values := form_defaults (newEntryForm p);
          form_defaults := form_defaults (newEntryForm p) |} p).

Definition console_log (e : Exn) (p : Page) : Page := emit (ConsoleLog e) p.

(** [Object.fromEntries(data.entries())]: a later entry with the same name
    overwrites an earlier one. *)
Definition Object_fromEntries (data : FormData) : gmap string string :=
  foldl (fun o kv => <[kv.1 := kv.2]> o) ∅ data.

(** [fetch(backendURL + path, {method, body})]: the request leaves and the
    listener is suspended until the response settles. *)
Definition fetch (method path : string) (body : option (gmap string string))
    (k : Awaiting) (p : Page) : Page :=
  emit (Fetch method path body) (set_pending (pending p ++ [k]) p).

(** ** Functions *)

(** The message of the [TypeError] thrown by [entries.length] when
    [entries] is [undefined]. *)
Definition length_of_undefined : Exn :=
  TypeError "Cannot read properties of undefined (reading 'length')".

(** The body of the loop of [renderMediaEntries] up to [appendChild]: the
    card of one entry. [createFileElement] is called with three arguments,
    so its fourth parameter [imgSource] is [undefined]. *)
Definition entryFileDiv (entry : Entry) : FileDiv :=
  createFileElement (Get entry (VString "title"))
                    (Get entry (VString "type"))
                    (Get entry (VString "description"))
                    VUndefined.

(** [renderMediaEntries(entries)]; [None] is [undefined], the value of
    [result] when the [try] block threw before assigning it. The function
    is [async] and has no [await]: its body runs to the end at the call,
    and an exception becomes the rejection of the promise it returns. *)
Definition renderMediaEntries (entries : option (list Entry)) (p : Page)
    : Page * Promise :=
  match entries with
  | None => (p, Rejected length_of_undefined)
  | Some entries =>
      if bool_decide (0 < length entries)%nat then
        (foldl (fun p entry => appendChild (entryFileDiv entry) p)
               (set_innerHTML "" p) entries,
         Fulfilled)
      else (set_innerHTML noResultsHTML p, Fulfilled)
  end.

(** [toggleSearchMode(mode)]. *)
Definition toggleSearchMode (mode : string) (p : Page) : Page :=
  if decide (mode = "simple") then
    emit (SetSearchMode mode)
      (set_searchMode {| searchModeBtn_innerText := "Advanced Search";
                         searchFormSimple_display := "flex";
                         searchFormAdvanced_display := "none" |} p)
  else if decide (mode = "advanced") then
    emit (SetSearchMode mode)
      (set_searchMode {| searchModeBtn_innerText := "Simple Search";
                         searchFormSimple_display := "none";
                         searchFormAdvanced_display := "flex" |} p)
  else p.

(** [toggleNewEntryView(entry)]. *)
Definition toggleNewEntryView (entry : bool) (p : Page) : Page :=
  if entry then
    emit (SetNewEntryView entry)
      (set_overlay {| body_overflow := "hidden";
                      newEntryView_display := "flex" |} p)
  else
    emit (SetNewEntryView entry)
      (set_overlay {| body_overflow := "auto";
                      newEntryView_display := "none" |} p).

(** ** Listeners *)

(** How a request settles: [Success] when [fetch] and [response.json()]
    both fulfil and the body is an array of records; [Failure] when either
    of them rejects (a transport failure, or a body that is not JSON). *)
Inductive Reply :=
  | Success (entries : list Entry)
  | Failure (e : Exn).

(** A promise nobody awaits: its rejection is reported as unhandled. *)
Definition forget (r : Page * Promise) : Page :=
  match r.2 with
  | Fulfilled => r.1
  | Rejected e => emit (UnhandledRejection e) r.1
  end.

(** [getRecentMediaEntries()] up to its first [await]: the request leaves. *)
Definition getRecentMediaEntries (p : Page) : Page :=
  fetch "GET" "/api/recent" None AwaitRecent p.

(** ... and after it: the function has no [try], so it returns the parsed
    entries or rejects with the exception of the request. *)
Definition getRecentMediaEntries_resume (r : Reply) : Exn + list Entry :=
  match r with
  | Success entries => inr entries
  | Failure e => inl e
  end.

(** The [load] listener up to its first [await]. *)
Definition load_listener (p : Page) : Page := getRecentMediaEntries p.

(** The [load] listener after the request settled. It has no [try]
    either: a rejection of [getRecentMediaEntries] rejects the promise of
    the listener; otherwise the entries are rendered and the rendering is
    awaited. *)
Definition load_resume (r : Reply) (p : Page) : Page * Promise :=
  match getRecentMediaEntries_resume r with
  | inl e => (p, Rejected e)
  | inr entries => renderMediaEntries (Some entries) p
  end.

(** The [try]/[catch] shared by the two submit listeners: [result] is
    assigned when the request succeeds; otherwise the exception is logged
    and [result] stays [undefined]. *)
Definition try_result (r : Reply) (p : Page) : option (list Entry) * Page :=
  match r with
  | Success entries => (Some entries, p)
  | Failure e => (None, console_log e p)
  end.

(** The [submit] listener of [searchFormSimple], up to its [await]. *)
Definition search_listener (data : FormData) (p : Page) : Page :=
  let p := emit PreventDefault p in
  let dataJSON := Object_fromEntries data in
  fetch "POST" "/api/general-search" (Some dataJSON) AwaitSearch p.

(** ... and after it: the promise of [renderMediaEntries] is not awaited. *)
Definition search_resume (r : Reply) (p : Page) : Page * Promise :=
  let '(result, p) := try_result r p in
  let p := forget (renderMediaEntries result p) in
  (p, Fulfilled).

(** The [submit] listener of [newEntryForm], up to its [await]. *)
Definition newEntry_listener (p : Page) : Page :=
  let p := emit PreventDefault p in
  let data := form_values (newEntryForm p) in
  let p := reset p in
  let dataJSON := Object_fromEntries data in
  fetch "POST" "/api/new" (Some dataJSON) AwaitNew p.

(** ... and after it. *)
Definition newEntry_resume (r : Reply) (p : Page) : Page * Promise :=
  let '(result, p) := try_result r p in
  let p := forget (renderMediaEntries result p) in
  let p := toggleNewEntryView false p in
  (p, Fulfilled).

(** The [click] listener of [searchModeBtn]. *)
Definition searchModeBtn_click (p : Page) : Page :=
  if decide (searchModeBtn_innerText (searchMode p) = "Simple Search") then
    toggleSearchMode "simple" p
  else if decide (searchModeBtn_innerText (searchMode p) = "Advanced Search") then
    toggleSearchMode "advanced" p
  else p.

Definition newEntryViewBtn_click (p : Page) : Page := toggleNewEntryView true p.

Definition newEntryExitBtn_click (p : Page) : Page := toggleNewEntryView false p.

(** Initial page setup, the last two statements of the script. *)
Definition setup (p : Page) : Page :=
  toggleNewEntryView false (toggleSearchMode "simple" p).

(** ** The event loop *)

Inductive Event :=
  | Load
  | ClickSearchModeBtn
  | ClickNewEntryViewBtn
  | ClickNewEntryExitBtn
  | Input (name v : string)
  | SubmitSearchSimple (data : FormData)
  | SubmitNewEntry
  | Settle (i : nat) (r : Reply).

(** The user types [v] into the controls of the new-entry form named
    [name]. *)
Definition input (name v : string) (p : Page) : Page :=
  set_newEntryForm
    {| form_values :=
         (fun kv : string * string =>
            if decide (kv.1 = name) then (kv.1, v) else kv)
           <$> form_values (newEntryForm p);
       form_defaults := form_defaults (newEntryForm p) |} p.

Definition resume (k : Awaiting) : Reply -> Page -> Page * Promise :=
  match k with
  | AwaitRecent => load_resume
  | AwaitSearch => search_resume
  | AwaitNew => newEntry_resume
  end.

(** The [i]-th outstanding request settles and its listener runs on. *)
Definition settle (i : nat) (r : Reply) (p : Page) : Page :=
  match pending p !! i with
  | None => p
  | Some k => forget (resume k r (set_pending (delete i (pending p)) p))
  end.

(** One task of the event loop: a listener runs until it returns or
    suspends. *)
Definition step (p : Page) (ev : Event) : Page :=
  match ev with
  | Load => load_listener p
  | ClickSearchModeBtn => searchModeBtn_click p
  | ClickNewEntryViewBtn => newEntryViewBtn_click p
  | ClickNewEntryExitBtn => newEntryExitBtn_click p
  | Input name v => input name v p
  | SubmitSearchSimple data => search_listener data p
  | SubmitNewEntry => newEntry_listener p
  | Settle i r => settle i r p
  end.

Definition run (evs : list Event) (p : Page) : Page := foldl step p evs.

(** ** The storage schema *)

Module Schema.

(** A row offered to [INSERT INTO media]; [None] is SQL [NULL]. *)
Record row := {
  title : option string;
  type : option string;
  thumbnail : option string;
  description : option string;
  genre : option string;
  released : option Z;
  length : option Z;
  path : option string
}.

(** The value of a [CHECK] expression: true, false, or unknown ([NULL]). *)
Abbreviation sql_bool := (option bool).

(** [type IN ('movie', 'show', 'video')]. *)
Definition type_enum : list string := ["movie"; "show"; "video"].

Definition sql_in (x : option string) (l : list string) : sql_bool :=
  (fun s => bool_decide (s ∈ l)) <$> x.

(** [x BETWEEN lo AND hi]. *)
Definition sql_between (x : option Z) (lo hi : Z) : sql_bool :=
  (fun z => (lo <=? z)%Z && (z <=? hi)%Z) <$> x.

(** [x < bound]. *)
Definition sql_lt (x : option Z) (bound : Z) : sql_bool :=
  (fun z => (z <? bound)%Z) <$> x.

(** A [CHECK] constraint rejects a row only when its expression is
    false; an unknown result passes. *)
Definition check (b : sql_bool) : bool :=
  match b with
  | Some false => false
  | _ => true
  end.

Definition not_null {A} (x : option A) : bool :=
  match x with
  | Some _ => true
  | None => false
  end.

Definition type_check (r : row) : bool := check (sql_in (type r) type_enum).
Definition released_check (r : row) : bool :=
  check (sql_between (released r) 1800 9999).
Definition length_check (r : row) : bool := check (sql_lt (length r) 100000).

(** The constraints of [CREATE TABLE media], in column order. *)
Definition accepts (r : row) : bool :=
  not_null (title r) && type_check r && released_check r && length_check r.

(** [INSERT INTO media]: the row is appended, or the statement fails with
    a constraint violation and the table is unchanged. *)
Definition insert (r : row) (tbl : list row) : option (list row) :=
  if accepts r then Some (tbl ++ [r]) else None.

(** A sequence of inserts into the table; the failed ones change nothing. *)
Definition inserts (rs : list row) (tbl : list row) : list row :=
  foldl (fun tbl r => default tbl (insert r tbl)) tbl rs.

(** What the schema promises of a stored row. *)
Definition well_formed (r : row) : Prop :=
  title r ≠ None ∧
  (∀ t, type r = Some t → t ∈ type_enum) ∧
  (∀ y, released r = Some y → (1800 ≤ y ≤ 9999)%Z) ∧
  (∀ n, length r = Some n → (n < 100000)%Z).

End Schema.

(** * Vocabulary of the properties *)

(** ** Rendering *)

(** The cards [renderMediaEntries] shows for a non-empty result, and the
    effects it performs for them. *)
Definition cards (entries : list Entry) : list Node :=
  (fun entry => Card (entryFileDiv entry)) <$> entries.

Definition appends (entries : list Entry) : list Action :=
  (fun entry => AppendChild (Card (entryFileDiv entry))) <$> entries.

(** What the display region holds once a result has been rendered, and
    the effects of rendering it. *)
Definition rendering (entries : list Entry) : list Node :=
  if decide (entries = []) then [Parsed noResultsHTML] else cards entries.

Definition render_actions (entries : list Entry) : list Action :=
  if decide (entries = []) then [SetBrowserHTML noResultsHTML]
  else SetBrowserHTML "" :: appends entries.

(** What the user sees of a page. *)
Definition visible (p : Page)
    : SearchModeView * NewEntryOverlay * list Node * FormData :=
  (searchMode p, overlay p, browser p, form_values (newEntryForm p)).

(** ** The new-entry submission *)

(** The overlay hidden and page scrolling restored. *)
Definition closed : NewEntryOverlay :=
  {| body_overflow := "auto"; newEntryView_display := "none" |}.

(** The effects that change the display region. *)
Definition is_render (a : Action) : bool :=
  match a with
  | SetBrowserHTML _ | AppendChild _ => true
  | _ => false
  end.

(** Every closing of the overlay in [tr] comes after some rendering effect
    ([rendered] tells whether one has been seen already). *)
Fixpoint closes_after_render (rendered : bool) (tr : list Action) : bool :=
  match tr with
  | [] => true
  | SetNewEntryView false :: tr => rendered && closes_after_render rendered tr
  | a :: tr => closes_after_render (rendered || is_render a) tr
  end.

(** The effects of one whole submission of the new-entry form on page [p],
    its request settling with [r]. *)
Definition submission (p : Page) (r : Reply) : list Action :=
  drop (length (trace p))
       (trace (settle (length (pending p)) r (newEntry_listener p))).

(** The second half of C3, as the specification states it of a
    submission. *)
Definition closes_only_after_render (p : Page) (r : Reply) : Prop :=
  closes_after_render false (submission p r) = true.

(** ** The search mode *)

Inductive Mode := Simple | Advanced.

Definition other (m : Mode) : Mode :=
  match m with
  | Simple => Advanced
  | Advanced => Simple
  end.

(** The label that names a mode on the mode button. *)
Definition label (m : Mode) : string :=
  match m with
  | Simple => "Simple Search"
  | Advanced => "Advanced Search"
  end.

(** The mode whose form is shown while the other form is hidden, if the
    two [display] styles say so. *)
Definition shown (v : SearchModeView) : option Mode :=
  if decide (searchFormSimple_display v = "flex"
             ∧ searchFormAdvanced_display v = "none") then Some Simple
  else if decide (searchFormSimple_display v = "none"
                  ∧ searchFormAdvanced_display v = "flex") then Some Advanced
  else None.

(** One search form is shown and the button names the other mode. *)
Definition label_names_other (v : SearchModeView) : Prop :=
  ∃ m, shown v = Some m ∧ searchModeBtn_innerText v = label (other m).

(** ** Sample data *)

(** The page as the parser leaves it before the script runs: an empty
    display region, a new-entry form with two empty controls, no style
    set by the script yet. *)
Definition blank : Page :=
  {| searchMode := {| searchModeBtn_innerText := "";
                      searchFormSimple_display := "";
                      searchFormAdvanced_display := "" |};
     overlay := {| body_overflow := ""; newEntryView_display := "" |};
     browser := [];
     newEntryForm := {| form_values := [("title", ""); ("type", "")];
                        form_defaults := [("title", ""); ("type", "")] |};
     pending := [];
     trace := [] |}.

(** The script as run to the end of the file on the blank page. *)
Definition ready : Page := setup blank.

(** The user has opened the overlay and typed a title and a type into the
    new-entry form. *)
Definition typed : Page :=
  run [ClickNewEntryViewBtn; Input "title" "Foo"; Input "type" "book"] ready.

(** The same, on a page whose markup gives the type control the default
    value [movie]. *)
Definition preset : Page :=
  run [ClickNewEntryViewBtn; Input "title" "Foo"; Input "type" "book"]
      (setup (set_newEntryForm
                {| form_values := [("title", ""); ("type", "movie")];
                   form_defaults := [("title", ""); ("type", "movie")] |}
                blank)).

Definition dune : Entry :=
  list_to_map [ ("title", VString "Dune"); ("type", VString "movie");
                ("description", VString "...") ].

Definition solaris : Entry :=
  list_to_map [ ("title", VString "Solaris"); ("type", VString "book");
                ("description", VNull) ].

(** A movie with an explicit thumbnail. *)
Definition dune_with_cover : Entry :=
  <["thumbnailUrl" := VString "cover.png"]>
    (<["thumbnail" := VString "cover.png"]> dune).

Definition clip : Schema.row :=
  {| Schema.title := Some "Clip"; Schema.type := Some "video";
     Schema.thumbnail := None; Schema.description := None;
     Schema.genre := None; Schema.released := Some 2024%Z;
     Schema.length := Some 95%Z; Schema.path := None |}.

Definition untitled : Schema.row :=
  {| Schema.title := None; Schema.type := None;
     Schema.thumbnail := None; Schema.description := None;
     Schema.genre := None; Schema.released := None;
     Schema.length := None; Schema.path := None |}.

Definition papyrus : Schema.row :=
  {| Schema.title := Some "Papyrus"; Schema.type := None;
     Schema.thumbnail := None; Schema.description := None;
     Schema.genre := None; Schema.released := Some 1799%Z;
     Schema.length := None; Schema.path := None |}.

Definition endless : Schema.row :=
  {| Schema.title := Some "Endless"; Schema.type := Some "show";
     Schema.thumbnail := None; Schema.description := None;
     Schema.genre := None; Schema.released := None;
     Schema.length := Some 100000%Z; Schema.path := None |}.

(** ** Requests, bodies and responses *)

(** The overlay shown and page scrolling suppressed. *)
Definition opened : NewEntryOverlay :=
  {| body_overflow := "hidden"; newEntryView_display := "flex" |}.

(** The value of the last entry of [data] named [k], if there is one. *)
Definition last_value (k : string) (data : FormData) : option string :=
  last (omap (fun kv : string * string =>
                if decide (kv.1 = k) then Some kv.2 else None) data).

(** The three endpoints of the backend, with their methods. *)
Definition endpoints : list (string * string) :=
  [ ("GET", "/api/recent"); ("POST", "/api/general-search");
    ("POST", "/api/new") ].

(** An effect that, if it is a request, goes to one of the endpoints. *)
Definition to_endpoint (a : Action) : Prop :=
  match a with
  | Fetch method path _ => (method, path) ∈ endpoints
  | _ => True
  end.

(** The effects of a listener resumed by the settlement [r] of its
    request. *)
Definition settle_actions (k : Awaiting) (r : Reply) : list Action :=
  match r, k with
  | Success entries, AwaitNew => render_actions entries ++ [SetNewEntryView false]
  | Success entries, _ => render_actions entries
  | Failure e, AwaitRecent => [UnhandledRejection e]
  | Failure e, AwaitSearch =>
      [ConsoleLog e; UnhandledRejection length_of_undefined]
  | Failure e, AwaitNew =>
      [ConsoleLog e; UnhandledRejection length_of_undefined;
       SetNewEntryView false]
  end.

(** * Properties *)

(** ** Rendering *)

(** The loop of [renderMediaEntries] appends the cards of the entries, in
    order, behind what the region holds, and touches nothing else. *)
Lemma foldl_appendChild (entries : list Entry) (p : Page) :
  foldl (fun p entry => appendChild (entryFileDiv entry) p) p entries =
  {| searchMode := searchMode p; overlay := overlay p;
     browser := browser p ++ cards entries;
     newEntryForm := newEntryForm p; pending := pending p;
     trace := trace p ++ appends entries |}.
Proof.
  revert p. induction entries as [|entry entries IH]; intros p.
  - destruct p; cbn. by rewrite !app_nil_r.
  - cbn [foldl]. rewrite IH. unfold appendChild, emit, set_browser; cbn.
    by rewrite <- !app_assoc.
Qed.

(** The result of [renderMediaEntries] on an array, field by field. *)
Lemma renderMediaEntries_array (entries : list Entry) (p : Page) :
  renderMediaEntries (Some entries) p =
  ({| searchMode := searchMode p; overlay := overlay p;
      browser := rendering entries;
      newEntryForm := newEntryForm p; pending := pending p;
      trace := trace p ++ render_actions entries |},
   Fulfilled).
Proof.
  unfold renderMediaEntries, rendering, render_actions.
  destruct entries as [|entry entries].
  - reflexivity.
  - rewrite bool_decide_eq_true_2 by (cbn; lia).
    rewrite foldl_appendChild. cbn. by rewrite <- app_assoc.
Qed.

(** C4. For a non-empty result, [renderMediaEntries] first empties the
    display region and then appends one card per record: whatever the
    region held before, it ends up holding exactly the cards of the records,
    as many as there are records and in their order, the [i]-th card
    carrying the title and description of the [i]-th record. *)
Theorem render_nonempty_one_card_per_record (entries : list Entry) (p : Page) :
  entries ≠ [] →
  let p' := (renderMediaEntries (Some entries) p).1 in
  browser (set_innerHTML "" p) = [] ∧
  trace p' = trace p ++ SetBrowserHTML "" :: appends entries ∧
  browser p' = cards entries ∧
  length (browser p') = length entries ∧
  ∀ i entry, entries !! i = Some entry →
    ∃ d, browser p' !! i = Some (Card d) ∧
         title d = Get entry (VString "title") ∧
         description d = Get entry (VString "description").
Proof.
  intros Hne p'. subst p'. rewrite renderMediaEntries_array.
  unfold rendering, render_actions.
  cbn [fst browser trace]. rewrite !decide_False by done.
  split_and!; try done.
  - unfold cards. by rewrite length_fmap.
  - intros i entry Hi. exists (entryFileDiv entry). split; [|done].
    unfold cards. by rewrite list_lookup_fmap, Hi.
Qed.

(** C5. For the empty result, [renderMediaEntries] replaces whatever the
    display region held by the single "No results found" placeholder, and
    the region holds no card. *)
Theorem render_empty_placeholder (p : Page) :
  let p' := (renderMediaEntries (Some []) p).1 in
  browser p' = [Parsed noResultsHTML] ∧
  (∀ d, Card d ∉ browser p') ∧
  trace p' = trace p ++ [SetBrowserHTML noResultsHTML].
Proof.
  cbn. split_and!; try done.
  intros d Hd. apply list_elem_of_singleton in Hd. discriminate.
Qed.

(** C6. Rendering the same result twice shows what rendering it once
    shows: nothing accumulates. *)
Theorem render_idempotent (entries : list Entry) (p : Page) :
  let once := (renderMediaEntries (Some entries) p).1 in
  let twice := (renderMediaEntries (Some entries) once).1 in
  visible twice = visible once ∧ browser twice = browser once.
Proof.
  cbn zeta. by rewrite !renderMediaEntries_array.
Qed.

Lemma render_nonempty_one_card_per_record_witness :
  [dune; solaris] ≠ [] ∧
  browser (renderMediaEntries (Some [dune; solaris]) blank).1
  = cards [dune; solaris].
Proof.
  split; [done|].
  apply (render_nonempty_one_card_per_record [dune; solaris] blank); done.
Defined.

(** ** Thumbnails *)

Example Get_movie : Get fileTypeThumbnailMap (VString "movie") = VString default_icon.
Proof. reflexivity. Qed.

Example Get_video : Get fileTypeThumbnailMap (VString "video") = VUndefined.
Proof. reflexivity. Qed.

Example Get_constructor :
  Get fileTypeThumbnailMap (VString "constructor") = VFunction "Object".
Proof. reflexivity. Qed.

(** [createFileElement] itself resolves the thumbnail as the specification
    describes: the explicit source when it is truthy, the entry of the type
    table otherwise. *)
Lemma createFileElement_thumbnail (title type description imgSource : value) :
  thumbnail (createFileElement title type description imgSource) =
  if ToBoolean imgSource then imgSource else Get fileTypeThumbnailMap type.
Proof. reflexivity. Qed.

(** A type that is neither a key of the table nor a member of
    [Object.prototype] has no default thumbnail. *)
Lemma Get_unrecognized (type : value) :
  fileTypeThumbnailMap !! ToPropertyKey type = None →
  Object_prototype !! ToPropertyKey type = None →
  Get fileTypeThumbnailMap type = VUndefined.
Proof. intros H1 H2. unfold Get. by rewrite H1, H2. Qed.

(** [renderMediaEntries] never passes an image source: the thumbnail of
    every card it makes is the table entry of the record's type. *)
Lemma entryFileDiv_thumbnail (entry : Entry) :
  thumbnail (entryFileDiv entry) =
  Get fileTypeThumbnailMap (Get entry (VString "type")).
Proof. reflexivity. Qed.

(** The card of a record depends on its [title], [type] and [description]
    only: no other field of the record reaches it. *)
Lemma entryFileDiv_other_field (entry : Entry) (k : string) (v : value) :
  k ∉ ["title"; "type"; "description"] →
  entryFileDiv (<[k := v]> entry) = entryFileDiv entry.
Proof.
  intros Hk. unfold entryFileDiv, Get; cbn [ToPropertyKey ToString].
  rewrite !lookup_insert_ne; [done|..]; intros ->; apply Hk; set_solver.
Qed.

(** C1, at the input where the script departs from it. The record carries
    an explicit thumbnail, yet the card rendered for it shows the default
    icon of its type: [renderMediaEntries] calls [createFileElement]
    without its fourth argument. *)
Theorem render_drops_explicit_thumbnail (p : Page) :
  Get dune_with_cover (VString "thumbnailUrl") = VString "cover.png" ∧
  browser (renderMediaEntries (Some [dune_with_cover]) p).1 =
    [Card {| classList := ["file"; "bordered"];
             thumbnail := VString default_icon;
             title := VString "Dune";
             description := VString "..." |}] ∧
  thumbnail (createFileElement (VString "Dune") (VString "movie")
               (VString "...") (VString "cover.png")) = VString "cover.png".
Proof.
  split_and!; [reflexivity| |reflexivity].
  rewrite renderMediaEntries_array. reflexivity.
Qed.

(** ** Requests and their settlement *)

(** Reads the console and the unhandled rejections off a trace that is
    an explicit extension of another. *)
Ltac read_trace :=
  cbn; unfold console, unhandled; rewrite ?omap_app; cbn;
  rewrite ?app_nil_r.

(** Settling the request a listener has just issued resumes that listener. *)
Lemma settle_last (k : Awaiting) (r : Reply) (p : Page) (l : list Awaiting) :
  pending p = l ++ [k] →
  settle (length l) r p = forget (resume k r (set_pending l p)).
Proof.
  intros Hp. unfold settle. rewrite Hp.
  rewrite list_lookup_middle by done.
  by rewrite delete_middle, app_nil_r.
Qed.

(** The two submit listeners catch a failed request: the exception is
    logged and the promise of the listener fulfils. *)
Lemma search_failure_caught (e : Exn) (p : Page) :
  let r := search_resume (Failure e) p in
  r.2 = Fulfilled ∧
  console r.1 = console p ++ [e] ∧
  unhandled r.1 = unhandled p ++ [length_of_undefined] ∧
  browser r.1 = browser p.
Proof.
  by read_trace.
Qed.

Lemma newEntry_failure_caught (e : Exn) (p : Page) :
  let r := newEntry_resume (Failure e) p in
  r.2 = Fulfilled ∧
  console r.1 = console p ++ [e] ∧
  unhandled r.1 = unhandled p ++ [length_of_undefined] ∧
  browser r.1 = browser p.
Proof.
  by read_trace.
Qed.

(** C2, at the input where the script departs from it. When the request
    for the recent entries fails, the [load] listener has no handler for
    the exception: nothing is logged, the display region is left as it
    was, and the promise of the listener is rejected with the exception of
    the request, unhandled. *)
Theorem load_failure_not_caught (e : Exn) (p : Page) :
  let p1 := load_listener p in
  let p2 := settle (length (pending p)) (Failure e) p1 in
  load_resume (Failure e) p1 = (p1, Rejected e) ∧
  console p2 = console p ∧
  unhandled p2 = unhandled p ++ [e] ∧
  browser p2 = browser p.
Proof.
  cbn zeta. split; [done|].
  rewrite (settle_last AwaitRecent) by done.
  by read_trace.
Qed.

(** ** The new-entry submission *)

Lemma closes_after_appends (entries : list Entry) :
  closes_after_render true (appends entries ++ [SetNewEntryView false]) = true.
Proof. induction entries as [|entry entries IH]; [done|]. exact IH. Qed.

Lemma closes_after_render_actions (entries : list Entry) :
  closes_after_render false (render_actions entries ++ [SetNewEntryView false])
  = true.
Proof.
  unfold render_actions. case_decide; [done|]. apply closes_after_appends.
Qed.

(** A settled new-entry request whose response parsed: the response is
    rendered, then the overlay is closed. *)
Lemma settle_new_success (q : Page) (i : nat) (entries : list Entry) :
  pending q !! i = Some AwaitNew →
  settle i (Success entries) q =
  {| searchMode := searchMode q; overlay := closed;
     browser := rendering entries;
     newEntryForm := newEntryForm q; pending := delete i (pending q);
     trace := trace q ++ render_actions entries ++ [SetNewEntryView false] |}.
Proof.
  intros Hi. unfold settle. rewrite Hi. cbn [resume].
  unfold newEntry_resume, try_result. rewrite renderMediaEntries_array.
  cbn. unfold emit, set_overlay, closed; cbn. by rewrite <- app_assoc.
Qed.

(** ... and one whose request failed: the failure is logged, the rendering
    of [undefined] is rejected, and the overlay is closed all the same. *)
Lemma settle_new_failure (q : Page) (i : nat) (e : Exn) :
  pending q !! i = Some AwaitNew →
  settle i (Failure e) q =
  {| searchMode := searchMode q; overlay := closed;
     browser := browser q;
     newEntryForm := newEntryForm q; pending := delete i (pending q);
     trace := trace q ++ [ConsoleLog e; UnhandledRejection length_of_undefined;
                          SetNewEntryView false] |}.
Proof.
  intros Hi. unfold settle. rewrite Hi. cbn.
  unfold emit, set_overlay, closed; cbn. by rewrite <- !app_assoc.
Qed.

(** C3 as the specification states it fails when the request fails: the
    overlay is closed although nothing was rendered before. *)
Lemma newEntry_closes_without_render :
  submission ready (Failure (NetworkError "Failed to fetch")) =
    [ PreventDefault; FormReset;
      Fetch "POST" "/api/new"
            (Some (Object_fromEntries [("title", ""); ("type", "")]));
      ConsoleLog (NetworkError "Failed to fetch");
      UnhandledRejection length_of_undefined;
      SetNewEntryView false ] ∧
  ¬ closes_only_after_render ready (Failure (NetworkError "Failed to fetch")).
Proof. split; [reflexivity|]. unfold closes_only_after_render. by vm_compute. Qed.

(** [reset()] restores the default values of the markup, which need not
    be empty: a type control whose default is [movie] is back at [movie]
    after the submission. *)
Example newEntry_reset_restores_defaults :
  form_values (newEntryForm preset) = [("title", "Foo"); ("type", "book")] ∧
  form_values (newEntryForm (newEntry_listener preset))
  = [("title", ""); ("type", "movie")].
Proof. split; reflexivity. Qed.

(** C3, amended. Submitting the new-entry form resets every field to its
    default value (so to empty, where the markup gives the controls no
    default value) before the request leaves, hence before any response
    arrives, and does not close the overlay; when the response arrives and
    parses, it is rendered first and the overlay is closed after that. *)
Theorem newEntry_submission_order (p : Page) (entries : list Entry) :
  let p1 := newEntry_listener p in
  let p2 := settle (length (pending p)) (Success entries) p1 in
  form_values (newEntryForm p1) = form_defaults (newEntryForm p) ∧
  (Forall (fun kv => kv.2 = "") (form_defaults (newEntryForm p)) →
   Forall (fun kv => kv.2 = "") (form_values (newEntryForm p1))) ∧
  overlay p1 = overlay p ∧
  browser p1 = browser p ∧
  submission p (Success entries) =
    [ PreventDefault; FormReset;
      Fetch "POST" "/api/new"
            (Some (Object_fromEntries (form_values (newEntryForm p)))) ]
    ++ render_actions entries ++ [SetNewEntryView false] ∧
  closes_only_after_render p (Success entries) ∧
  browser p2 = rendering entries ∧
  overlay p2 = closed.
Proof.
  intros p1 p2.
  assert (Hp1 : pending p1 !! length (pending p) = Some AwaitNew).
  { subst p1. cbn. by rewrite list_lookup_middle. }
  assert (Hsub : submission p (Success entries) =
    [ PreventDefault; FormReset;
      Fetch "POST" "/api/new"
            (Some (Object_fromEntries (form_values (newEntryForm p)))) ]
    ++ render_actions entries ++ [SetNewEntryView false]).
  { unfold submission. fold p1. rewrite (settle_new_success _ _ _ Hp1).
    subst p1. cbn [trace newEntry_listener fetch emit set_pending reset
                   set_newEntryForm].
    rewrite <- !app_assoc. by rewrite drop_app_length. }
  split_and!; try done.
  - unfold closes_only_after_render. rewrite Hsub.
    cbn. apply closes_after_render_actions.
  - subst p2. by rewrite (settle_new_success _ _ _ Hp1).
  - subst p2. by rewrite (settle_new_success _ _ _ Hp1).
Qed.

(** The scenario of the specification: the overlay is open and the form
    holds a title and a type; the submission empties the form and leaves
    the overlay open, and the response is rendered and closes it. *)
Lemma newEntry_submission_order_witness :
  (form_values (newEntryForm typed) = [("title", "Foo"); ("type", "book")]
   ∧ overlay typed = opened) ∧
  (form_values (newEntryForm (newEntry_listener typed))
   = [("title", ""); ("type", "")]
   ∧ Forall (fun kv : string * string => kv.2 = "")
            (form_values (newEntryForm (newEntry_listener typed)))
   ∧ overlay (newEntry_listener typed) = opened) ∧
  (submission typed (Success [dune]) =
     [ PreventDefault; FormReset;
       Fetch "POST" "/api/new"
             (Some (Object_fromEntries [("title", "Foo"); ("type", "book")])) ]
     ++ render_actions [dune] ++ [SetNewEntryView false]
   ∧ browser (settle 0 (Success [dune]) (newEntry_listener typed))
     = cards [dune]
   ∧ overlay (settle 0 (Success [dune]) (newEntry_listener typed)) = closed).
Proof.
  destruct (newEntry_submission_order typed [dune])
    as (Hreset & Hempty & Hov & _ & Hsub & _ & Hbr & Hcl).
  split; [split; reflexivity|]. split; [|split; [exact Hsub|split]].
  - split; [rewrite Hreset; reflexivity|]. split.
    + apply Hempty. repeat constructor.
    + rewrite Hov. reflexivity.
  - exact Hbr.
  - exact Hcl.
Defined.

(** C9. Whenever the request of a new-entry submission settles, with a
    response or with a failure, the listener ends by closing the overlay:
    the overlay is hidden, scrolling is restored, and closing is the last
    thing the listener does. *)
Theorem newEntry_settle_closes_overlay (q : Page) (i : nat) (r : Reply) :
  pending q !! i = Some AwaitNew →
  let q' := settle i r q in
  newEntryView_display (overlay q') = "none" ∧
  body_overflow (overlay q') = "auto" ∧
  last (trace q') = Some (SetNewEntryView false) ∧
  (newEntry_resume r q).2 = Fulfilled.
Proof.
  intros Hi q'. subst q'. destruct r as [entries|e].
  - rewrite (settle_new_success _ _ _ Hi). cbn [overlay trace closed].
    split_and!; try done. by rewrite !app_assoc, last_snoc.
  - rewrite (settle_new_failure _ _ _ Hi). cbn [overlay trace closed].
    split_and!; try done.
    by rewrite last_app.
Qed.

Lemma newEntry_settle_closes_overlay_witness :
  pending (newEntry_listener (newEntryViewBtn_click ready)) !! 0 = Some AwaitNew ∧
  overlay (newEntryViewBtn_click ready) =
    {| body_overflow := "hidden"; newEntryView_display := "flex" |} ∧
  overlay (settle 0 (Failure (SyntaxError "Unexpected token <"))
             (newEntry_listener (newEntryViewBtn_click ready))) = closed.
Proof.
  split; [reflexivity|]. split; [reflexivity|].
  pose proof (newEntry_settle_closes_overlay
                (newEntry_listener (newEntryViewBtn_click ready)) 0
                (Failure (SyntaxError "Unexpected token <")) eq_refl) as H.
  cbn zeta in H. destruct H as (Hd & Ho & _).
  destruct (overlay _) as [o d]. cbn in Hd, Ho. unfold closed. by subst.
Defined.

(** ** The search-mode toggle *)

Lemma renderMediaEntries_searchMode (x : option (list Entry)) (p : Page) :
  searchMode (forget (renderMediaEntries x p)) = searchMode p.
Proof.
  destruct x as [entries|]; [|done]. by rewrite renderMediaEntries_array.
Qed.

(** Only a click on the mode button changes the search-mode view. *)
Lemma step_searchMode (ev : Event) (p : Page) :
  ev ≠ ClickSearchModeBtn → searchMode (step p ev) = searchMode p.
Proof.
  intros Hev. destruct ev; try done.
  cbn. unfold settle. destruct (pending p !! i) as [[]|]; [..|done];
    destruct r as [entries|e]; cbn -[renderMediaEntries];
    by rewrite ?renderMediaEntries_array.
Qed.

Lemma click_searchMode (p : Page) :
  label_names_other (searchMode p) →
  label_names_other (searchMode (searchModeBtn_click p)).
Proof.
  intros (m & Hm & Hl). unfold searchModeBtn_click. rewrite Hl.
  destruct m; cbn; [exists Advanced | exists Simple]; done.
Qed.

Lemma run_label_names_other (evs : list Event) (p : Page) :
  label_names_other (searchMode p) →
  label_names_other (searchMode (run evs p)).
Proof.
  revert p. induction evs as [|ev evs IH]; intros p Hp; [done|].
  cbn. apply IH.
  assert (ev = ClickSearchModeBtn ∨ ev ≠ ClickSearchModeBtn) as [->|Hev]
    by (destruct ev; (by left) || (by right)).
  - by apply click_searchMode.
  - by rewrite step_searchMode.
Qed.

(** Wherever one form is shown and the button names the other mode, two
    clicks on the button change nothing the user sees. *)
Lemma two_clicks_visible (p : Page) :
  label_names_other (searchMode p) →
  visible (searchModeBtn_click (searchModeBtn_click p)) = visible p.
Proof.
  intros (m & Hm & Hl). unfold visible.
  destruct p as [[l s a] o b f pd tr]. cbn in Hm, Hl. subst l.
  unfold shown in Hm; cbn in Hm.
  destruct m; repeat case_decide; try done; destruct_and?; by subst.
Qed.

(** C7. After the initial setup the page is in Simple mode; one click on
    the mode button shows the advanced form, a second click brings back
    exactly what the user saw before the first; and after any sequence of
    events one form is shown, the button names the mode of the other, and
    two further clicks leave what the user sees unchanged. *)
Theorem search_mode_two_cycle (p0 : Page) :
  let s := setup p0 in
  shown (searchMode s) = Some Simple ∧
  shown (searchMode (searchModeBtn_click s)) = Some Advanced ∧
  visible (searchModeBtn_click (searchModeBtn_click s)) = visible s ∧
  ∀ evs,
    let s' := run evs s in
    label_names_other (searchMode s') ∧
    visible (searchModeBtn_click (searchModeBtn_click s')) = visible s'.
Proof.
  cbn zeta. split_and!; try done.
  intros evs.
  assert (H : label_names_other (searchMode (run evs (setup p0)))).
  { apply run_label_names_other. by exists Simple. }
  split; [done|]. by apply two_clicks_visible.
Qed.

(** ** The schema *)

Lemma accepts_well_formed (r : Schema.row) :
  Schema.accepts r = true → Schema.well_formed r.
Proof.
  unfold Schema.accepts, Schema.type_check, Schema.released_check,
    Schema.length_check.
  rewrite !andb_true_iff. intros [[[Ht Hty] Hrel] Hlen].
  split_and!.
  - by destruct (Schema.title r).
  - intros t Et. rewrite Et in Hty. cbn in Hty.
    destruct (bool_decide (t ∈ Schema.type_enum)) eqn:E; [|done].
    by apply bool_decide_eq_true in E.
  - intros y Ey. rewrite Ey in Hrel. cbn in Hrel.
    destruct (1800 <=? y)%Z eqn:E1; destruct (y <=? 9999)%Z eqn:E2;
      try done. lia.
  - intros n En. rewrite En in Hlen. cbn in Hlen.
    destruct (n <? 100000)%Z eqn:E; [lia|done].
Qed.

(** A row whose type is outside the enumeration is rejected. *)
Lemma type_rejected (r : Schema.row) (t : string) :
  Schema.type r = Some t → t ∉ Schema.type_enum → Schema.accepts r = false.
Proof.
  intros Et Hn. unfold Schema.accepts, Schema.type_check. rewrite Et. cbn.
  rewrite bool_decide_eq_false_2 by done. cbn. by rewrite andb_false_r.
Qed.

Lemma inserts_well_formed (rs tbl : list Schema.row) :
  Forall Schema.well_formed tbl →
  Forall Schema.well_formed (Schema.inserts rs tbl).
Proof.
  revert tbl. induction rs as [|r rs IH]; intros tbl Htbl; [done|].
  cbn. apply IH. unfold Schema.insert.
  destruct (Schema.accepts r) eqn:E; [|done].
  cbn. apply Forall_app. split; [done|].
  constructor; [|done]. by apply accepts_well_formed.
Qed.

Example inserts_sample :
  Schema.inserts [clip; untitled; papyrus; endless] [] = [clip].
Proof. reflexivity. Qed.

(** C8. Whatever rows are offered to the table, each row the table ends up
    holding has a title, a type (if any) of the enumeration, a release
    year (if any) from 1800 to 9999 inclusive, and a length (if any)
    below 100000. *)
Theorem stored_rows_well_formed (rs : list Schema.row) :
  Forall Schema.well_formed (Schema.inserts rs []) ∧
  (∀ r tbl, Schema.insert r tbl = None ∨
            (Schema.insert r tbl = Some (tbl ++ [r]) ∧ Schema.well_formed r)).
Proof.
  split; [by apply inserts_well_formed|].
  intros r tbl. unfold Schema.insert.
  destruct (Schema.accepts r) eqn:E; [right|by left].
  split; [done|]. by apply accepts_well_formed.
Qed.

(** C10. The type enumeration of the schema and the keys of the client's
    thumbnail table are different sets. The schema accepts a [video] row
    without thumbnail, for which the client finds no default thumbnail;
    and the client holds defaults for [music] and [book], which the schema
    rejects. *)
Theorem type_tables_disagree :
  dom fileTypeThumbnailMap = list_to_set fileTypeThumbnailMap_keys ∧
  dom fileTypeThumbnailMap ≠ list_to_set Schema.type_enum ∧
  (Schema.accepts clip = true ∧ Schema.type clip = Some "video"
   ∧ Schema.thumbnail clip = None) ∧
  Get fileTypeThumbnailMap (VString "video") = VUndefined ∧
  thumbnail (createFileElement (VString "Clip") (VString "video")
               VNull VUndefined) = VUndefined ∧
  (is_Some (fileTypeThumbnailMap !! "music")
   ∧ Schema.check (Schema.sql_in (Some "music") Schema.type_enum) = false) ∧
  (is_Some (fileTypeThumbnailMap !! "book")
   ∧ Schema.check (Schema.sql_in (Some "book") Schema.type_enum) = false).
Proof.
  split_and!; try reflexivity; try (by eexists).
  intros H.
  assert (Hv : "video" ∈ dom fileTypeThumbnailMap).
  { rewrite H. set_solver. }
  apply elem_of_dom in Hv. destruct Hv as [v Hv]. by vm_compute in Hv.
Qed.

(** * Further properties of the script and the schema *)

(** ** Settlement, in general *)

(** Whatever request settles and however, the page that results. *)
Lemma settle_pending (p : Page) (i : nat) (k : Awaiting) (r : Reply) :
  pending p !! i = Some k →
  settle i r p =
  {| searchMode := searchMode p;
     overlay := match k with AwaitNew => closed | _ => overlay p end;
     browser := match r with
                | Success entries => rendering entries
                | Failure _ => browser p
                end;
     newEntryForm := newEntryForm p; pending := delete i (pending p);
     trace := trace p ++ settle_actions k r |}.
Proof.
  intros Hi. unfold settle. rewrite Hi.
  destruct k, r as [entries|e]; cbn -[renderMediaEntries];
    rewrite ?renderMediaEntries_array; cbn;
    unfold emit, set_overlay, closed; cbn;
    by rewrite <- ?app_assoc.
Qed.

Lemma omap_appends {B} (f : Action → option B) (entries : list Entry) :
  (∀ n, f (AppendChild n) = None) → omap f (appends entries) = [].
Proof.
  intros Ha. induction entries as [|entry entries IH]; [done|].
  unfold appends in *. rewrite fmap_cons. cbn [omap list_omap].
  by rewrite Ha.
Qed.

Lemma omap_render_actions {B} (f : Action → option B) (entries : list Entry) :
  (∀ html, f (SetBrowserHTML html) = None) →
  (∀ n, f (AppendChild n) = None) →
  omap f (render_actions entries) = [].
Proof.
  intros Hs Ha. unfold render_actions. case_decide.
  - cbn. by rewrite Hs.
  - cbn [omap list_omap]. rewrite Hs. by apply omap_appends.
Qed.

Lemma console_settle_actions_success (k : Awaiting) (entries : list Entry) :
  omap (fun a => match a with ConsoleLog e => Some e | _ => None end)
       (settle_actions k (Success entries)) = [] ∧
  omap (fun a => match a with UnhandledRejection e => Some e | _ => None end)
       (settle_actions k (Success entries)) = [].
Proof.
  destruct k; cbn [settle_actions]; rewrite ?omap_app;
    rewrite !omap_render_actions by done; done.
Qed.

(** ** Responses *)

(** X1. When a request of any of the three kinds settles with a parsed
    response, the display region becomes the rendering of that response,
    nothing is logged and no promise is rejected; the request is removed
    from the outstanding ones, and the search mode and the new-entry form
    are untouched. *)
Theorem response_replaces_display (p : Page) (i : nat) (k : Awaiting)
    (entries : list Entry) :
  pending p !! i = Some k →
  let p' := settle i (Success entries) p in
  browser p' = rendering entries ∧
  console p' = console p ∧
  unhandled p' = unhandled p ∧
  pending p' = delete i (pending p) ∧
  searchMode p' = searchMode p ∧
  newEntryForm p' = newEntryForm p.
Proof.
  intros Hi p'. subst p'. rewrite (settle_pending _ _ _ _ Hi).
  destruct (console_settle_actions_success k entries) as [Hc Hu].
  unfold console, unhandled. cbn [browser trace pending searchMode newEntryForm].
  rewrite !omap_app, Hc, Hu, !app_nil_r. done.
Qed.

Lemma response_replaces_display_witness :
  pending (load_listener ready) !! 0 = Some AwaitRecent ∧
  browser (settle 0 (Success [dune; solaris]) (load_listener ready))
  = rendering [dune; solaris].
Proof.
  split; [reflexivity|].
  apply (response_replaces_display (load_listener ready) 0 AwaitRecent
           [dune; solaris] eq_refl).
Defined.

(** X2. Two searches are submitted one after the other and both are
    answered. Whichever answer arrives last is the one displayed: if the
    answer to the first search arrives after the answer to the second, the
    page shows the results of the first search. *)
Theorem last_response_wins (p : Page) (dataA dataB : FormData)
    (A B : list Entry) :
  let n := length (pending p) in
  let p2 := search_listener dataB (search_listener dataA p) in
  browser (settle n (Success A) (settle (S n) (Success B) p2)) = rendering A ∧
  browser (settle n (Success B) (settle n (Success A) p2)) = rendering B.
Proof.
  intros n p2.
  assert (Hp2 : pending p2 = (pending p ++ [AwaitSearch]) ++ [AwaitSearch]).
  { subst p2. cbn. by rewrite <- app_assoc. }
  assert (Hn : S n = length (pending p ++ [AwaitSearch])).
  { subst n. rewrite length_app. cbn. lia. }
  split.
  - assert (H1 : pending p2 !! S n = Some AwaitSearch).
    { rewrite Hp2, Hn. by apply list_lookup_middle. }
    rewrite (settle_pending _ _ _ _ H1).
    erewrite settle_pending; [done|].
    cbn [pending]. rewrite Hp2, Hn, delete_middle, app_nil_r.
    by apply list_lookup_middle.
  - assert (Hp2' : pending p2 = pending p ++ AwaitSearch :: [AwaitSearch]).
    { by rewrite Hp2, <- app_assoc. }
    assert (H1 : pending p2 !! n = Some AwaitSearch).
    { rewrite Hp2'. by apply list_lookup_middle. }
    rewrite (settle_pending _ _ _ _ H1).
    erewrite settle_pending; [done|].
    cbn [pending]. rewrite Hp2'. subst n.
    rewrite delete_middle. by apply list_lookup_middle.
Qed.

(** X3. When the request of a search fails, the display region, the
    overlay, the search mode and the form are left as they were; the
    exception is logged, and the rendering of the undefined result is
    rejected with a [TypeError] that nobody handles. *)
Theorem failed_search_keeps_display (p : Page) (i : nat) (e : Exn) :
  pending p !! i = Some AwaitSearch →
  let p' := settle i (Failure e) p in
  visible p' = visible p ∧
  console p' = console p ++ [e] ∧
  unhandled p' = unhandled p ++ [length_of_undefined].
Proof.
  intros Hi p'. subst p'. rewrite (settle_pending _ _ _ _ Hi).
  unfold visible, console, unhandled; cbn. by rewrite !omap_app.
Qed.

Lemma failed_search_keeps_display_witness :
  pending (search_listener [("query", "dune")] ready) !! 0 = Some AwaitSearch ∧
  visible (settle 0 (Failure (NetworkError "Failed to fetch"))
             (search_listener [("query", "dune")] ready))
  = visible (search_listener [("query", "dune")] ready).
Proof.
  split; [reflexivity|].
  apply (failed_search_keeps_display (search_listener [("query", "dune")] ready)
           0 (NetworkError "Failed to fetch") eq_refl).
Defined.

(** ** What each event can change *)

(** The effects an event adds to the trace, and what it leaves alone, for
    the events that are not the settlement of a request. *)
Lemma step_not_settle (p : Page) (ev : Event) :
  (∀ i r, ev ≠ Settle i r) →
  browser (step p ev) = browser p ∧
  ∃ acts, trace (step p ev) = trace p ++ acts ∧
          Forall to_endpoint acts ∧
          omap (fun a => match a with ConsoleLog e => Some e | _ => None end)
               acts = [] ∧
          omap (fun a => match a with
                         | UnhandledRejection e => Some e
                         | _ => None
                         end) acts = [].
Proof.
  intros Hev. destruct ev; cbn [step].
  - split; [done|]. eexists; split; [reflexivity|]. split; [|done].
    repeat constructor; set_solver.
  - unfold searchModeBtn_click. repeat case_decide; (split; [done|]).
    + eexists; split; [reflexivity|]. split; [by repeat constructor|done].
    + eexists; split; [reflexivity|]. split; [by repeat constructor|done].
    + exists []. by rewrite app_nil_r.
  - split; [done|]. eexists; split; [reflexivity|].
    split; [by repeat constructor|done].
  - split; [done|]. eexists; split; [reflexivity|].
    split; [by repeat constructor|done].
  - split; [done|]. exists []. by rewrite app_nil_r.
  - split; [done|]. eexists; split; [cbn; by rewrite <- app_assoc|].
    split; [|done]. repeat constructor; set_solver.
  - split; [done|]. eexists; split; [cbn; by rewrite <- !app_assoc|].
    split; [|done]. repeat constructor; set_solver.
  - by destruct (Hev i r).
Qed.

Lemma settle_actions_to_endpoint (k : Awaiting) (r : Reply) :
  Forall to_endpoint (settle_actions k r).
Proof.
  assert (Hr : ∀ entries, Forall to_endpoint (render_actions entries)).
  { intros entries. unfold render_actions. case_decide.
    - by repeat constructor.
    - constructor; [done|]. unfold appends. apply Forall_fmap.
      by apply Forall_true. }
  destruct r as [entries|e], k; cbn [settle_actions];
    rewrite ?Forall_app; repeat split; try apply Hr; by repeat constructor.
Qed.

(** X4. The display region changes only when a request settles: clicks,
    typing, the [load] event and the submission of either form leave it as
    it is. *)
Theorem display_changes_only_on_settlement (p : Page) (ev : Event) :
  (∀ i r, ev ≠ Settle i r) → browser (step p ev) = browser p.
Proof. intros Hev. by apply step_not_settle. Qed.

Lemma display_changes_only_on_settlement_witness :
  (∀ i r, SubmitNewEntry ≠ Settle i r) ∧
  browser (step (settle 0 (Success [dune]) (load_listener ready)) SubmitNewEntry)
  = cards [dune].
Proof.
  assert (H : ∀ i r, SubmitNewEntry ≠ Settle i r) by done.
  split; [exact H|].
  exact (display_changes_only_on_settlement
           (settle 0 (Success [dune]) (load_listener ready)) SubmitNewEntry H).
Defined.

(** X5. The script logs nothing but the exception of a failed search or
    new-entry request: an event either leaves the console as it is, or it
    is the failure of such a request and adds its exception. *)
Theorem console_only_failed_requests (p : Page) (ev : Event) :
  console (step p ev) = console p ∨
  ∃ i e k, ev = Settle i (Failure e) ∧ pending p !! i = Some k ∧
           k ≠ AwaitRecent ∧ console (step p ev) = console p ++ [e].
Proof.
  assert (ev_dec : (∀ i r, ev ≠ Settle i r) ∨ ∃ i r, ev = Settle i r).
  { destruct ev; (by left) || (right; eauto). }
  destruct ev_dec as [Hev|(i & r & ->)].
  - left. destruct (step_not_settle p ev Hev) as (_ & acts & Ht & _ & Hc & _).
    unfold console. by rewrite Ht, omap_app, Hc, app_nil_r.
  - cbn [step]. destruct (pending p !! i) as [k|] eqn:Hi.
    + rewrite (settle_pending _ _ _ _ Hi). unfold console. cbn [trace].
      rewrite omap_app. destruct r as [entries|e].
      * left. destruct (console_settle_actions_success k entries) as [-> _].
        by rewrite app_nil_r.
      * destruct k.
        -- left. cbn. by rewrite app_nil_r.
        -- right. by exists i, e, AwaitSearch.
        -- right. by exists i, e, AwaitNew.
    + left. unfold settle. by rewrite Hi.
Qed.

Lemma step_to_endpoint (p : Page) (ev : Event) :
  Forall to_endpoint (trace p) → Forall to_endpoint (trace (step p ev)).
Proof.
  intros Hp.
  assert (ev_dec : (∀ i r, ev ≠ Settle i r) ∨ ∃ i r, ev = Settle i r).
  { destruct ev; (by left) || (right; eauto). }
  destruct ev_dec as [Hev|(i & r & ->)].
  - destruct (step_not_settle p ev Hev) as (_ & acts & Ht & Ha & _ & _).
    rewrite Ht. by apply Forall_app.
  - cbn [step]. destruct (pending p !! i) as [k|] eqn:Hi.
    + rewrite (settle_pending _ _ _ _ Hi). cbn [trace].
      apply Forall_app. split; [done|]. apply settle_actions_to_endpoint.
    + unfold settle. by rewrite Hi.
Qed.

(** X6. Whatever the user does and however the requests settle, the
    script sends requests to its three endpoints only: [GET /api/recent],
    [POST /api/general-search] and [POST /api/new]. *)
Theorem requests_go_to_endpoints (evs : list Event) (p : Page) :
  Forall to_endpoint (trace p) → Forall to_endpoint (trace (run evs p)).
Proof.
  revert p. induction evs as [|ev evs IH]; intros p Hp; [done|].
  cbn. apply IH. by apply step_to_endpoint.
Qed.

Lemma requests_go_to_endpoints_witness :
  Forall to_endpoint (trace ready) ∧
  Forall to_endpoint
    (trace (run [Load; SubmitSearchSimple [("query", "dune")];
                 Settle 1 (Failure (NetworkError "Failed to fetch"));
                 ClickNewEntryViewBtn; Input "title" "Foo"; SubmitNewEntry;
                 Settle 0 (Success [dune])] ready)).
Proof.
  assert (H : Forall to_endpoint (trace ready)) by (by repeat constructor).
  split; [exact H|].
  exact (requests_go_to_endpoints _ ready H).
Defined.

(** ** The overlay *)

(** The overlay after an event, when the event is not the settlement of a
    new-entry request. *)
Lemma step_overlay (p : Page) (ev : Event) :
  overlay (step p ev) =
  match ev with
  | ClickNewEntryViewBtn => opened
  | ClickNewEntryExitBtn => closed
  | Settle i r => match pending p !! i with
                  | Some AwaitNew => closed
                  | _ => overlay p
                  end
  | _ => overlay p
  end.
Proof.
  destruct ev; cbn [step]; try done.
  - unfold searchModeBtn_click. by repeat case_decide.
  - destruct (pending p !! i) as [k|] eqn:Hi.
    + rewrite (settle_pending _ _ _ _ Hi). by destruct k.
    + unfold settle. by rewrite Hi.
Qed.

(** X7. The setup closes the overlay whatever the markup says, and from
    then on, whatever happens, the overlay is in one of two states: hidden
    with page scrolling restored, or shown with page scrolling suppressed. *)
Theorem overlay_closed_or_opened (p0 : Page) (evs : list Event) :
  overlay (setup p0) = closed ∧
  (overlay (run evs (setup p0)) = closed ∨
   overlay (run evs (setup p0)) = opened).
Proof.
  split; [done|].
  assert (H : overlay (setup p0) = closed ∨ overlay (setup p0) = opened)
    by by left.
  revert H. generalize (setup p0). clear p0.
  induction evs as [|ev evs IH]; intros p Hp; [done|].
  cbn. apply IH. rewrite step_overlay.
  destruct ev; try done; [by right|by left|].
  destruct (pending p !! i) as [[]|]; try done. by left.
Qed.

(** X8. Only three things move the overlay: its two buttons and the
    settlement of a new-entry request. Any other event, the settlement of
    a search or of the initial request among them, leaves it as it is. *)
Theorem overlay_changes_only_by_its_controls (p : Page) (ev : Event) :
  ev ≠ ClickNewEntryViewBtn →
  ev ≠ ClickNewEntryExitBtn →
  (∀ i r, ev = Settle i r → pending p !! i ≠ Some AwaitNew) →
  overlay (step p ev) = overlay p.
Proof.
  intros Hv Hx Hs. rewrite step_overlay. destruct ev; try done.
  specialize (Hs i r eq_refl). by destruct (pending p !! i) as [[]|].
Qed.

Lemma overlay_changes_only_by_its_controls_witness :
  overlay (step (search_listener [("query", "dune")]
                   (newEntryViewBtn_click ready))
                (Settle 0 (Success [dune]))) = opened.
Proof.
  apply (overlay_changes_only_by_its_controls
           (search_listener [("query", "dune")] (newEntryViewBtn_click ready))
           (Settle 0 (Success [dune]))); [done|done|].
  intros i r Hev. injection Hev as <- _. by vm_compute.
Defined.

(** X9. Only a click on the mode button changes which search form is
    shown and what the button says: no request, response, submission or
    overlay button does. *)
Theorem search_mode_changes_only_on_click (p : Page) (ev : Event) :
  ev ≠ ClickSearchModeBtn → searchMode (step p ev) = searchMode p.
Proof. apply step_searchMode. Qed.

Lemma search_mode_changes_only_on_click_witness :
  searchMode (step (newEntry_listener ready) (Settle 0 (Success [])))
  = searchMode ready.
Proof.
  apply (search_mode_changes_only_on_click (newEntry_listener ready)
           (Settle 0 (Success []))). done.
Defined.

(** ** Request bodies *)

(** The object made of the entries of a form maps each name to the value
    of its last entry. *)
Lemma fromEntries_last_value (data : FormData) (k : string) :
  Object_fromEntries data !! k = last_value k data.
Proof.
  unfold Object_fromEntries, last_value.
  induction data as [|[k' v] data IH] using rev_ind; [done|].
  rewrite foldl_snoc, omap_app. cbn.
  destruct (decide (k' = k)) as [->|Hk].
  - by rewrite lookup_insert_eq, last_snoc.
  - by rewrite lookup_insert_ne, app_nil_r.
Qed.

Lemma last_value_None (data : FormData) (k : string) :
  last_value k data = None ↔ k ∉ data.*1.
Proof.
  unfold last_value. rewrite last_None.
  induction data as [|[k' v] data IH]; cbn.
  - split; [intros _; apply not_elem_of_nil|done].
  - rewrite not_elem_of_cons. destruct (decide (k' = k)) as [->|Hk].
    + split; [done|]. by intros [? _].
    + rewrite IH. split; [by split|by intros [_ ?]].
Qed.

(** X11. The JSON object a form is sent as has one member per control
    name, none for a name the form lacks, and for a name carried by several
    controls the value of the last of them; a blank value is sent as it
    is. *)
Theorem form_body_members (data : FormData) (k v : string) :
  Object_fromEntries data !! k = last_value k data ∧
  (Object_fromEntries data !! k = None ↔ k ∉ data.*1) ∧
  Object_fromEntries (data ++ [(k, v)]) !! k = Some v.
Proof.
  split_and!.
  - apply fromEntries_last_value.
  - rewrite fromEntries_last_value. apply last_value_None.
  - rewrite fromEntries_last_value. unfold last_value.
    rewrite omap_app. cbn. rewrite decide_True by done. apply last_snoc.
Qed.

(** X12. The new-entry listener reads the form before it resets it: the
    form is back at its default values once the listener suspends, and the
    request it has just sent to [POST /api/new] carries, for every control
    name, the value the form held when it was submitted. *)
Theorem new_entry_request_carries_submitted_values (p : Page) :
  let p1 := newEntry_listener p in
  form_values (newEntryForm p1) = form_defaults (newEntryForm p) ∧
  pending p1 = pending p ++ [AwaitNew] ∧
  ∃ body,
    last (trace p1) = Some (Fetch "POST" "/api/new" (Some body)) ∧
    ∀ k, body !! k = last_value k (form_values (newEntryForm p)).
Proof.
  cbn zeta. split_and!; try done.
  exists (Object_fromEntries (form_values (newEntryForm p))). split.
  - cbn. apply last_snoc.
  - intros k. apply fromEntries_last_value.
Qed.

(** ** Thumbnails and cards *)

Lemma fileTypeThumbnailMap_values (k : string) (v : value) :
  fileTypeThumbnailMap !! k = Some v → v = VString default_icon.
Proof.
  unfold fileTypeThumbnailMap. cbn [list_to_map foldr fst snd].
  rewrite !lookup_insert. repeat case_decide; try congruence.
  by rewrite lookup_empty.
Qed.

Lemma fileTypeThumbnailMap_lookup_None (k : string) :
  fileTypeThumbnailMap !! k = None ↔ k ∉ fileTypeThumbnailMap_keys.
Proof.
  rewrite <- not_elem_of_dom.
  assert (dom fileTypeThumbnailMap
          = list_to_set (C:=gset string) fileTypeThumbnailMap_keys) as ->
    by reflexivity.
  by rewrite elem_of_list_to_set.
Qed.

Lemma Object_prototype_defined (k : string) :
  Object_prototype !! k ≠ Some VUndefined.
Proof.
  unfold Object_prototype. cbn [list_to_map foldr fst snd].
  rewrite !lookup_insert. repeat case_decide; try done.
Qed.

(** X13. The default thumbnail of a type is the default icon when the
    type, read as a property name, is one of the four keys of the table,
    and it is [undefined] exactly when the name is neither one of them nor
    a member every object inherits (such as [constructor]). *)
Theorem default_thumbnail_cases (ty : value) :
  ((ToPropertyKey ty) ∈ fileTypeThumbnailMap_keys →
   Get fileTypeThumbnailMap ty = VString default_icon) ∧
  (Get fileTypeThumbnailMap ty = VUndefined ↔
   (ToPropertyKey ty ∉ fileTypeThumbnailMap_keys) ∧
   Object_prototype !! ToPropertyKey ty = None).
Proof.
  unfold Get. split.
  - intros Hk. destruct (fileTypeThumbnailMap !! _) as [v|] eqn:E.
    + by apply fileTypeThumbnailMap_values in E.
    + by apply fileTypeThumbnailMap_lookup_None in E.
  - destruct (fileTypeThumbnailMap !! _) as [v|] eqn:E.
    + apply fileTypeThumbnailMap_values in E as E'. subst v. split; [done|].
      intros [Hk _]. apply fileTypeThumbnailMap_lookup_None in Hk. congruence.
    + apply fileTypeThumbnailMap_lookup_None in E.
      destruct (Object_prototype !! _) as [v|] eqn:E2; cbn.
      * split; [|by intros [_ ?]]. intros ->.
        by apply Object_prototype_defined in E2.
      * done.
Qed.

Lemma default_thumbnail_cases_witness :
  ToPropertyKey (VString "show") ∈ fileTypeThumbnailMap_keys ∧
  Get fileTypeThumbnailMap (VString "show") = VString default_icon.
Proof.
  assert (H : ToPropertyKey (VString "show") ∈ fileTypeThumbnailMap_keys).
  { cbn. unfold fileTypeThumbnailMap_keys. rewrite !elem_of_cons. tauto. }
  split; [exact H|].
  exact (proj1 (default_thumbnail_cases (VString "show")) H).
Defined.

(** X14. [createFileElement] treats an image source that is
    [undefined], [null] or the empty string as absent and falls back to
    the default of the type; an image source that is a non-empty string
    becomes the thumbnail as it is. *)
Theorem image_source_or_default (t ty ds : value) (s : string) :
  thumbnail (createFileElement t ty ds VUndefined)
  = Get fileTypeThumbnailMap ty ∧
  thumbnail (createFileElement t ty ds VNull) = Get fileTypeThumbnailMap ty ∧
  thumbnail (createFileElement t ty ds (VString ""))
  = Get fileTypeThumbnailMap ty ∧
  (s ≠ "" → thumbnail (createFileElement t ty ds (VString s)) = VString s).
Proof.
  split_and!; try done.
  intros Hs. rewrite createFileElement_thumbnail. cbn.
  by destruct (String.eqb_spec s "").
Qed.

Lemma image_source_or_default_witness :
  thumbnail (createFileElement (VString "Dune") (VString "movie") VNull
               (VString "cover.png")) = VString "cover.png".
Proof.
  apply (image_source_or_default (VString "Dune") (VString "movie") VNull
           "cover.png"). done.
Defined.

(** X15. A record that lacks a title or a description is rendered with
    the text [undefined] in its place, and a description that is [null]
    with the text [null]; a record that lacks a type, or whose type is
    [null], gets no thumbnail, and its image source reads [undefined]. *)
Theorem missing_fields_render_as_text (entry : Entry) :
  (entry !! "title" = None →
   ToString (title (entryFileDiv entry)) = "undefined") ∧
  (entry !! "description" = None →
   ToString (description (entryFileDiv entry)) = "undefined") ∧
  (entry !! "description" = Some VNull →
   ToString (description (entryFileDiv entry)) = "null") ∧
  (entry !! "type" = None ∨ entry !! "type" = Some VNull →
   thumbnail (entryFileDiv entry) = VUndefined ∧
   ToString (thumbnail (entryFileDiv entry)) = "undefined").
Proof.
  unfold entryFileDiv, createFileElement, Get;
    cbn [title description thumbnail ToBoolean ToPropertyKey ToString].
  split_and!.
  - by intros ->.
  - by intros ->.
  - by intros ->.
  - by intros [-> | ->].
Qed.

Lemma missing_fields_render_as_text_witness :
  ({[ "title" := VString "Stalker" ]} : Entry) !! "description" = None ∧
  ToString (description (entryFileDiv {[ "title" := VString "Stalker" ]}))
  = "undefined".
Proof.
  split; [reflexivity|].
  apply (missing_fields_render_as_text {[ "title" := VString "Stalker" ]}).
  reflexivity.
Defined.

(** ** Rejected promises *)

(** X16. No listener rejects a promise before its request settles:
    clicks, typing, the [load] event and both submissions add no unhandled
    rejection. A request that fails adds exactly one: the exception of the
    request itself for the initial request, and for a search or a
    new-entry request, whose exception is caught, the [TypeError] of
    rendering an undefined result. *)
Theorem failed_request_rejects_once (p : Page) (ev : Event) :
  ((∀ i r, ev ≠ Settle i r) → unhandled (step p ev) = unhandled p) ∧
  (∀ i e k, ev = Settle i (Failure e) → pending p !! i = Some k →
     unhandled (step p ev) =
     unhandled p ++ [match k with
                     | AwaitRecent => e
                     | _ => length_of_undefined
                     end]).
Proof.
  split.
  - intros Hev.
    destruct (step_not_settle p ev Hev) as (_ & acts & Ht & _ & _ & Hu).
    unfold unhandled. by rewrite Ht, omap_app, Hu, app_nil_r.
  - intros i e k -> Hi. cbn [step].
    rewrite (settle_pending _ _ _ _ Hi). unfold unhandled. cbn [trace].
    rewrite omap_app. by destruct k.
Qed.

Lemma failed_request_rejects_once_witness :
  pending (newEntry_listener typed) !! 0 = Some AwaitNew ∧
  unhandled (step (newEntry_listener typed)
                  (Settle 0 (Failure (SyntaxError "Unexpected token <"))))
  = [length_of_undefined].
Proof.
  split; [reflexivity|].
  exact (proj2 (failed_request_rejects_once (newEntry_listener typed)
                  (Settle 0 (Failure (SyntaxError "Unexpected token <"))))
               0 (SyntaxError "Unexpected token <") AwaitNew
               eq_refl eq_refl).
Defined.

(** ** The schema, completed *)

(** X17. The four constraints are all the table checks: a row is accepted
    exactly when it has a title, its type (if any) is of the enumeration,
    its release year (if any) lies from 1800 to 9999 and its length (if
    any) is below 100000. Thumbnail, description, genre and path are
    unconstrained, and so is the sign of the length. *)
Theorem accepts_iff_well_formed (r : Schema.row) :
  Schema.accepts r = true ↔ Schema.well_formed r.
Proof.
  split; [apply accepts_well_formed|].
  intros (Ht & Hty & Hrel & Hlen).
  unfold Schema.accepts, Schema.type_check, Schema.released_check,
    Schema.length_check.
  rewrite !andb_true_iff. split_and!.
  - by destruct (Schema.title r).
  - destruct (Schema.type r) as [t|]; [|done]. cbn.
    by rewrite bool_decide_eq_true_2 by by apply Hty.
  - destruct (Schema.released r) as [y|]; [|done]. cbn.
    specialize (Hrel y eq_refl).
    destruct (1800 <=? y)%Z eqn:E1; destruct (y <=? 9999)%Z eqn:E2;
      try done; lia.
  - destruct (Schema.length r) as [n|]; [|done]. cbn.
    specialize (Hlen n eq_refl). destruct (n <? 100000)%Z eqn:E; [done|lia].
Qed.

(** X19. Of the types the schema admits, exactly [video] has no default
    thumbnail on the client: a stored row of type [movie] or [show] is
    shown with the default icon, a stored row of type [video] with none. *)
Theorem stored_type_default_thumbnail (r : Schema.row) (t : string) :
  Schema.accepts r = true →
  Schema.type r = Some t →
  (t ≠ "video" → Get fileTypeThumbnailMap (VString t) = VString default_icon) ∧
  (t = "video" → Get fileTypeThumbnailMap (VString t) = VUndefined).
Proof.
  intros Hr Ht. apply accepts_well_formed in Hr as (_ & Hty & _).
  specialize (Hty t Ht). unfold Schema.type_enum in Hty.
  rewrite !elem_of_cons, elem_of_nil in Hty.
  destruct Hty as [->|[->|[->|[]]]]; by split.
Qed.

Lemma stored_type_default_thumbnail_witness :
  Schema.accepts clip = true ∧ Schema.type clip = Some "video" ∧
  Get fileTypeThumbnailMap (VString "video") = VUndefined.
Proof.
  split; [reflexivity|]. split; [reflexivity|].
  apply (stored_type_default_thumbnail clip "video"); reflexivity.
Defined.

(** ** The search mode, continued *)

(** X20. Once the setup has run, every click on the mode button switches
    the mode, whatever happened before: the form that was hidden is shown,
    the form that was shown is hidden. *)
Theorem click_switches_mode (p0 : Page) (evs : list Event) :
  let s := run evs (setup p0) in
  ∃ m, shown (searchMode s) = Some m ∧
       shown (searchMode (searchModeBtn_click s)) = Some (other m).
Proof.
  cbn zeta.
  assert (H : label_names_other (searchMode (run evs (setup p0)))).
  { apply run_label_names_other. by exists Simple. }
  destruct H as (m & Hm & Hl). exists m. split; [done|].
  unfold searchModeBtn_click. rewrite Hl. by destruct m.
Qed.
